(** * avalon-core host integrations: the Photoshop panel and the Harmony shim

    A shallow embedding of the two script files of the repository:

    - the client-facing part of the Photoshop extension (the panel script
      that opens the websocket RPC channel, registers the [Photoshop.*]
      routes and relays each call into the host with [csInterface.evalScript]);
    - [avalon/harmony/js/AvalonHarmony.js], the functions Harmony evaluates
      on behalf of Avalon.

    JavaScript strings are modelled by [string] (one [ascii] per code unit:
    every character the scripts test or insert is in the ASCII range),
    numbers by [Z] (the payloads carry integer ids), objects by association
    lists in insertion order, and the host applications by explicit state. *)

From Stdlib Require Import ZArith List String Ascii Bool Lia.
From stdpp Require Import base option list strings gmap pretty.

Set Warnings "-register-all".
Local Open Scope string_scope.

(** ** JavaScript values *)

Module JS.

(** The values a JSON payload can carry, plus [undefined]. *)
Inductive Value : Type :=
| Undefined
| Null
| Bool (b : bool)
| Num (n : Z)
| Str (s : string)
| Arr (elems : list Value)
| Obj (props : list (string * Value)).

(** [ToString], as the [+] operator applies it to a non-string operand.
    An array prints its elements separated by commas, with [null] and
    [undefined] elements printed as nothing. *)
Fixpoint ToString (v : Value) : string :=
  match v with
  | Undefined => "undefined"
  | Null => "null"
  | Bool true => "true"
  | Bool false => "false"
  | Num n => pretty n
  | Str s => s
  | Arr elems =>
      (fix join (l : list Value) : string :=
         match l with
         | [] => ""
         | x :: rest =>
             match x with Undefined | Null => "" | _ => ToString x end
             +:+ match rest with [] => "" | _ => "," +:+ join rest end
         end) elems
  | Obj _ => "[object Object]"
  end.

End JS.

(** ** The built-in [JSON] object, on the values above

    A model of [JSON.stringify] and [JSON.parse] for integer numbers and
    for strings whose only escaped characters are the double quote, the
    backslash and the line feed. The Harmony functions below take the two
    operations as parameters; this instance is what they are run with. *)

Module JSON.

Import JS.

Definition dq : ascii := "034"%char.
Definition bs : ascii := "092"%char.
Definition lf : ascii := "010"%char.

Fixpoint escapeText (s : string) : string :=
  match s with
  | EmptyString => EmptyString
  | String c rest =>
      if Ascii.eqb c dq then String bs (String dq (escapeText rest))
      else if Ascii.eqb c bs then String bs (String bs (escapeText rest))
      else if Ascii.eqb c lf then String bs (String "n" (escapeText rest))
      else String c (escapeText rest)
  end.

Definition quoteText (s : string) : string :=
  String dq (escapeText s) +:+ String dq EmptyString.

(** The text of a value. [undefined] inside an array is written [null];
    a property whose value is [undefined] is left out. *)
Fixpoint write (v : Value) : string :=
  match v with
  | Undefined | Null => "null"
  | Bool true => "true"
  | Bool false => "false"
  | Num n => pretty n
  | Str s => quoteText s
  | Arr elems =>
      "[" +:+ String.concat ","
        ((fix items (l : list Value) : list string :=
            match l with
            | [] => []
            | x :: rest => write x :: items rest
            end) elems) +:+ "]"
  | Obj props =>
      "{" +:+ String.concat ","
        ((fix members (l : list (string * Value)) : list string :=
            match l with
            | [] => []
            | (k, x) :: rest =>
                match x with
                | Undefined => members rest
                | _ => (quoteText k +:+ ":" +:+ write x) :: members rest
                end
            end) props) +:+ "}"
  end.

Definition stringify (v : Value) : Value :=
  match v with
  | Undefined => Undefined
  | _ => Str (write v)
  end.

Definition isSpace (c : ascii) : bool :=
  Ascii.eqb c " " || Ascii.eqb c lf || Ascii.eqb c "009" || Ascii.eqb c "013".

Fixpoint skipSpace (s : string) : string :=
  match s with
  | String c rest => if isSpace c then skipSpace rest else s
  | EmptyString => s
  end.

(** The characters of a string literal after its opening quote. *)
Fixpoint readText (s : string) : option (string * string) :=
  match s with
  | EmptyString => None
  | String c rest =>
      if Ascii.eqb c dq then Some (EmptyString, rest)
      else if Ascii.eqb c bs then
        match rest with
        | String d rest' =>
            let unescaped :=
              if Ascii.eqb d "n" then Some lf
              else if Ascii.eqb d dq || Ascii.eqb d bs || Ascii.eqb d "/"
              then Some d else None in
            match unescaped, readText rest' with
            | Some x, Some (text, tail) => Some (String x text, tail)
            | _, _ => None
            end
        | EmptyString => None
        end
      else
        match readText rest with
        | Some (text, tail) => Some (String c text, tail)
        | None => None
        end
  end.

Definition digit (c : ascii) : option Z :=
  let n := Z.of_nat (nat_of_ascii c) in
  if ((48 <=? n) && (n <=? 57))%Z then Some (n - 48)%Z else None.

Fixpoint readDigits (s : string) (acc : Z) : Z * string :=
  match s with
  | String c rest =>
      match digit c with
      | Some d => readDigits rest (10 * acc + d)%Z
      | None => (acc, s)
      end
  | EmptyString => (acc, s)
  end.

Definition readNumber (s : string) : option (Z * string) :=
  match s with
  | String "-" (String c rest) =>
      match digit c with
      | Some d => let '(n, tail) := readDigits rest d in Some ((- n)%Z, tail)
      | None => None
      end
  | String c rest =>
      match digit c with
      | Some d => Some (readDigits rest d)
      | None => None
      end
  | EmptyString => None
  end.

Fixpoint dropPrefix (prefix s : string) : option string :=
  match prefix, s with
  | EmptyString, _ => Some s
  | String a prefix', String b s' =>
      if Ascii.eqb a b then dropPrefix prefix' s' else None
  | String _ _, EmptyString => None
  end.

(** One value at the head of [s], and the rest of [s]. *)
Fixpoint readValue (fuel : nat) (s : string) : option (Value * string) :=
  match fuel with
  | O => None
  | S fuel' =>
      match skipSpace s with
      | String "[" rest =>
          match skipSpace rest with
          | String "]" tail => Some (Arr [], tail)
          | _ =>
              match readItems fuel' rest with
              | Some (elems, tail) => Some (Arr elems, tail)
              | None => None
              end
          end
      | String "{" rest =>
          match skipSpace rest with
          | String "}" tail => Some (Obj [], tail)
          | _ =>
              match readMembers fuel' rest with
              | Some (props, tail) => Some (Obj props, tail)
              | None => None
              end
          end
      | String c rest as s' =>
          if Ascii.eqb c dq then
            match readText rest with
            | Some (text, tail) => Some (Str text, tail)
            | None => None
            end
          else
            match dropPrefix "null" s', dropPrefix "true" s',
                  dropPrefix "false" s' with
            | Some tail, _, _ => Some (Null, tail)
            | _, Some tail, _ => Some (Bool true, tail)
            | _, _, Some tail => Some (Bool false, tail)
            | _, _, _ =>
                match readNumber s' with
                | Some (n, tail) => Some (Num n, tail)
                | None => None
                end
            end
      | EmptyString => None
      end
  end
with readItems (fuel : nat) (s : string) : option (list Value * string) :=
  match fuel with
  | O => None
  | S fuel' =>
      match readValue fuel' s with
      | Some (x, tail) =>
          match skipSpace tail with
          | String "," rest =>
              match readItems fuel' rest with
              | Some (xs, tail') => Some (x :: xs, tail')
              | None => None
              end
          | String "]" rest => Some ([x], rest)
          | _ => None
          end
      | None => None
      end
  end
with readMembers (fuel : nat) (s : string)
  : option (list (string * Value) * string) :=
  match fuel with
  | O => None
  | S fuel' =>
      match skipSpace s with
      | String c rest =>
          if Ascii.eqb c dq then
            match readText rest with
            | Some (k, tail) =>
                match skipSpace tail with
                | String ":" rest' =>
                    match readValue fuel' rest' with
                    | Some (x, tail') =>
                        match skipSpace tail' with
                        | String "," rest'' =>
                            match readMembers fuel' rest'' with
                            | Some (ms, tail'') => Some ((k, x) :: ms, tail'')
                            | None => None
                            end
                        | String "}" rest'' => Some ([(k, x)], rest'')
                        | _ => None
                        end
                    | None => None
                    end
                | _ => None
                end
            | None => None
            end
          else None
      | EmptyString => None
      end
  end.

(** [JSON.parse(v)]: the argument is turned into text first; the whole
    text has to be one value. *)
Definition parse (v : Value) : option Value :=
  let text := ToString v in
  match readValue (2 * String.length text + 2) text with
  | Some (x, tail) =>
      match skipSpace tail with
      | EmptyString => Some x
      | _ => None
      end
  | None => None
  end.

End JSON.

(** ** The Photoshop panel *)

Module Photoshop.

Import JS.

Definition backslash : ascii := "092"%char.
Definition squote : ascii := "039"%char.
Definition dquote : ascii := "034"%char.
Definition newline : ascii := "010"%char.

(** [str.replace(/c/g, by)] for a pattern that is the single character [c]
    and a replacement text [by] without [$]: every occurrence of [c],
    left to right, is replaced by [by]. *)
Fixpoint replaceAll (c : ascii) (by_ : string) (str : string) : string :=
  match str with
  | EmptyString => EmptyString
  | String x rest =>
      (if Ascii.eqb x c then by_ else String x EmptyString)
      +:+ replaceAll c by_ rest
  end.

(** [EscapeStringForJSX]: three passes over the whole string, backslashes
    first, then single quotes, then double quotes. *)
Definition EscapeStringForJSX (str : string) : string :=
  replaceAll dquote (String backslash (String dquote EmptyString))
    (replaceAll squote (String backslash (String squote EmptyString))
       (replaceAll backslash (String backslash (String backslash EmptyString))
          str)).

(** *** The panel's effects

    A handler logs, may throw, and hands scripts to the host through
    [csInterface.evalScript(script, callback)]; what it does next is the
    callback, which receives the text the host delivers. *)

Inductive Error : Type :=
| TypeError (msg : string).

Inductive Panel (R : Type) : Type :=
| Return (r : R)
| Throw (e : Error)
| LogWarn (msg : string) (args : list Value) (k : Panel R)
| EvalScript (script : string) (callback : string -> Panel R).

Arguments Return {R} r.
Arguments Throw {R} e.
Arguments LogWarn {R} msg args k.
Arguments EvalScript {R} script callback.

(** [p.then(f)]: run [p], then [f] on its value; a failure skips [f]. *)
Fixpoint then_ {A B : Type} (p : Panel A) (f : A -> Panel B) : Panel B :=
  match p with
  | Return r => f r
  | Throw e => Throw e
  | LogWarn msg args k => LogWarn msg args (then_ k f)
  | EvalScript script callback => EvalScript script (fun r => then_ (callback r) f)
  end.

#[global] Instance Panel_ret : MRet Panel := @Return.
#[global] Instance Panel_bind : MBind Panel := fun A B f p => then_ p f.

(** [log.warn(msg, args...)]. *)
Definition log_warn (msg : string) (args : list Value) : Panel unit :=
  LogWarn msg args (Return tt).

(** [new Promise(function (resolve, reject) { ... })]: the executor runs at
    once; [resolve] fulfils the promise and [reject] fails it. *)
Definition newPromise {R : Type}
    (executor : (R -> Panel R) -> (Error -> Panel R) -> Panel R) : Panel R :=
  executor Return Throw.

(** [runEvalScript]: the promise's [resolve] is the host callback; [reject]
    is never used. *)
Definition runEvalScript (script : string) : Panel string :=
  newPromise (fun resolve reject => EvalScript script resolve).

(** A payload object and the read of one of its fields ([data.key]); a
    missing field reads as [undefined]. *)
Definition Data : Type := list (string * Value).

Fixpoint get (data : Data) (key : string) : Value :=
  match data with
  | [] => Undefined
  | (k, v) :: rest => if String.eqb k key then v else get rest key
  end.

(** A call of [v.replace(...)]: only a string has the method; on any other
    payload value the call throws. *)
Definition withReplace (v : Value) (f : string -> string) : Panel string :=
  match v with
  | Str s => Return (f s)
  | Undefined | Null => Throw (TypeError "cannot read property replace")
  | _ => Throw (TypeError "replace is not a function")
  end.

Definition callEscapeStringForJSX (v : Value) : Panel string :=
  withReplace v EscapeStringForJSX.

Definition quoted (s : string) : string :=
  String dquote s +:+ String dquote EmptyString.

(** *** The routes, in the order the panel registers them *)

Definition route_open (data : Data) : Panel string :=
  log_warn ("Server called client route " +:+ quoted "open" +:+ ":") [Obj data];;
  escapedPath ← callEscapeStringForJSX (get data "path");
  result ← runEvalScript ("fileOpen('" +:+ escapedPath +:+ "')");
  log_warn ("open: " +:+ result) [];;
  mret result.

Definition route_read (data : Data) : Panel string :=
  log_warn ("Server called client route " +:+ quoted "read" +:+ ":") [Obj data];;
  result ← runEvalScript "getHeadline()";
  log_warn ("getHeadline: " +:+ result) [];;
  mret result.

Definition route_get_layers (data : Data) : Panel string :=
  log_warn ("Server called client route " +:+ quoted "get_layers" +:+ ":")
    [Obj data];;
  result ← runEvalScript "getLayers()";
  log_warn ("getLayers: " +:+ result) [];;
  mret result.

Definition route_set_visible (data : Data) : Panel string :=
  log_warn ("Server called client route " +:+ quoted "set_visible" +:+ ":")
    [Obj data];;
  result ← runEvalScript ("setVisible(" +:+ ToString (get data "layer_id")
                          +:+ ", " +:+ ToString (get data "visibility")
                          +:+ ")");
  log_warn ("setVisible: " +:+ result) [];;
  mret result.

Definition route_get_active_document_name (data : Data) : Panel string :=
  log_warn ("Server called client route "
            +:+ quoted "get_active_document_name" +:+ ":") [Obj data];;
  result ← runEvalScript "getActiveDocumentName()";
  log_warn ("save: " +:+ result) [];;
  mret result.

Definition route_get_active_document_full_name (data : Data) : Panel string :=
  log_warn ("Server called client route "
            +:+ quoted "get_active_document_full_name" +:+ ":") [Obj data];;
  result ← runEvalScript "getActiveDocumentFullName()";
  log_warn ("save: " +:+ result) [];;
  mret result.

Definition route_save (data : Data) : Panel string :=
  log_warn ("Server called client route " +:+ quoted "save" +:+ ":") [Obj data];;
  result ← runEvalScript "save()";
  log_warn ("save: " +:+ result) [];;
  mret result.

Definition route_get_selected_layers (data : Data) : Panel string :=
  log_warn ("Server called client route "
            +:+ quoted "get_selected_layers" +:+ ":") [Obj data];;
  result ← runEvalScript "getSelectedLayers()";
  log_warn ("get_selected_layers: " +:+ result) [];;
  mret result.

Definition route_create_group (data : Data) : Panel string :=
  log_warn ("Server called client route " +:+ quoted "create_group" +:+ ":")
    [Obj data];;
  result ← runEvalScript ("createGroup('" +:+ ToString (get data "name")
                          +:+ "')");
  log_warn ("createGroup: " +:+ result) [];;
  mret result.

Definition route_group_selected_layers (data : Data) : Panel string :=
  log_warn ("Server called client route "
            +:+ quoted "group_selected_layers" +:+ ":") [Obj data];;
  result ← runEvalScript ("groupSelectedLayers(null, " +:+
                          "'" +:+ ToString (get data "name") +:+ "')");
  log_warn ("group_selected_layers: " +:+ result) [];;
  mret result.

Definition route_import_smart_object (data : Data) : Panel string :=
  log_warn ("Server called client route "
            +:+ quoted "import_smart_object" +:+ ":") [Obj data];;
  escapedPath ← callEscapeStringForJSX (get data "path");
  result ← runEvalScript ("importSmartObject('" +:+ escapedPath +:+ "')");
  log_warn ("import_smart_object: " +:+ result) [];;
  mret result.

Definition route_replace_smart_object (data : Data) : Panel string :=
  log_warn ("Server called route " +:+ quoted "replace_smart_object" +:+ ":")
    [Obj data];;
  escapedPath ← callEscapeStringForJSX (get data "path");
  result ← runEvalScript ("replaceSmartObjects('"
                          +:+ ToString (get data "layer") +:+ "'," +:+
                          "'" +:+ escapedPath +:+ "')");
  log_warn ("replaceSmartObjects: " +:+ result) [];;
  mret result.

Definition route_select_layers (data : Data) : Panel string :=
  log_warn ("Server called client route " +:+ quoted "select_layers" +:+ ":")
    [Obj data];;
  result ← runEvalScript "selectLayers()";
  log_warn ("select_layers: " +:+ result) [];;
  mret result.

Definition route_is_saved (data : Data) : Panel string :=
  log_warn ("Server called client route " +:+ quoted "is_saved" +:+ ":")
    [Obj data];;
  result ← runEvalScript "isSaved()";
  log_warn ("is_saved: " +:+ result) [];;
  mret result.

Definition route_saveAs (data : Data) : Panel string :=
  log_warn ("Server called client route " +:+ quoted "saveAsJPEG" +:+ ":")
    [Obj data];;
  escapedPath ← callEscapeStringForJSX (get data "image_path");
  result ← runEvalScript ("saveAs('" +:+ escapedPath +:+ "', " +:+
                          "'" +:+ ToString (get data "ext") +:+ "', " +:+
                          ToString (get data "as_copy") +:+ ")");
  log_warn ("save: " +:+ result) [];;
  mret result.

Definition route_imprint (data : Data) : Panel string :=
  log_warn ("Server called client route " +:+ quoted "imprint" +:+ ":")
    [Obj data];;
  escaped ← withReplace (get data "payload")
              (replaceAll newline (String backslash "n"));
  result ← runEvalScript ("imprint('" +:+ escaped +:+ "')");
  log_warn ("imprint: " +:+ result) [];;
  mret result.

(** *** The RPC object

    [new WSRPC(url, 5000)] and the [addRoute] calls that follow it. The
    channel library is not part of the panel script: the object records
    what the script passes to it. *)

Definition Handler : Type := Data -> Panel string.

Record WSRPC : Type := mkWSRPC {
  url : string;
  timeout : Z;
  routes : list (string * Handler)
}.

Definition new_WSRPC (url : string) (timeout : Z) : WSRPC :=
  mkWSRPC url timeout [].

Definition addRoute (name : string) (handler : Handler) (rpc : WSRPC) : WSRPC :=
  mkWSRPC (url rpc) (timeout rpc) (routes rpc ++ [(name, handler)]).

(** The [addRoute] calls of the panel script, first to last. *)
Definition registrations : list (string * Handler) :=
  [ ("Photoshop.open", route_open);
    ("Photoshop.read", route_read);
    ("Photoshop.get_layers", route_get_layers);
    ("Photoshop.set_visible", route_set_visible);
    ("Photoshop.get_active_document_name", route_get_active_document_name);
    ("Photoshop.get_active_document_full_name",
      route_get_active_document_full_name);
    ("Photoshop.save", route_save);
    ("Photoshop.get_selected_layers", route_get_selected_layers);
    ("Photoshop.create_group", route_create_group);
    ("Photoshop.group_selected_layers", route_group_selected_layers);
    ("Photoshop.import_smart_object", route_import_smart_object);
    ("Photoshop.replace_smart_object", route_replace_smart_object);
    ("Photoshop.select_layers", route_select_layers);
    ("Photoshop.is_saved", route_is_saved);
    ("Photoshop.saveAs", route_saveAs);
    ("Photoshop.imprint", route_imprint) ].

(** The global [RPC] once the panel script has run. *)
Definition RPC : WSRPC :=
  foldl (fun rpc r => addRoute r.1 r.2 rpc)
        (new_WSRPC "ws://localhost:8099/ws/" 5000)
        registrations.

(** *** Running a handler against the host

    The host answers a script through the callback alone: with the script's
    result, or, when the script failed, with an error text in the same
    place. *)

Inductive HostReply : Type :=
| Delivered (result : string)
| ScriptError (message : string).

Definition callbackPayload (r : HostReply) : string :=
  match r with
  | Delivered result => result
  | ScriptError message => message
  end.

(** The state of the handler's promise as the dispatcher sees it. *)
Inductive Outcome : Type :=
| Pending
| Resolved (v : string)
| Failed (e : Error).

Record Run : Type := mkRun {
  logged : list (string * list Value);
  dispatched : list string;
  outcome : Outcome
}.

(** [run p replies]: what [p] has done once the callbacks of its first
    [length replies] script invocations have fired, in order. With no reply
    left, a handler that has handed a script to the host is suspended. *)
Fixpoint run (p : Panel string) (replies : list HostReply) : Run :=
  match p with
  | Return r => mkRun [] [] (Resolved r)
  | Throw e => mkRun [] [] (Failed e)
  | LogWarn msg args k =>
      let r := run k replies in
      mkRun ((msg, args) :: logged r) (dispatched r) (outcome r)
  | EvalScript script callback =>
      match replies with
      | [] => mkRun [] [script] Pending
      | reply :: rest =>
          let r := run (callback (callbackPayload reply)) rest in
          mkRun (logged r) (script :: dispatched r) (outcome r)
      end
  end.

(** The script a handler hands to the host first, if it gets that far. *)
Definition scriptOf (p : Panel string) : option string :=
  head (dispatched (run p [])).

(** *** The host's reading of a string literal

    The parser of the host's scripting language belongs to Photoshop and
    not to this repository. A string literal of that language is read as a
    string literal of ECMAScript: inside a literal opened by the quote [q],
    the first bare [q] closes the literal; a backslash and the character
    after it stand for one character; a bare line feed or carriage return
    may not occur; every other character stands for itself. *)

Definition carriageReturn : ascii := "013"%char.

(** Modelled from the spec: the characters the escaping contract lists
    after a backslash (the host's table of escapes is not in the
    repository). *)
Definition escapable (c : ascii) : bool :=
  Ascii.eqb c backslash || Ascii.eqb c squote || Ascii.eqb c dquote.

(** Modelled from the spec: the characters that end a line, which a
    literal of the host's language may not hold bare. *)
Definition lineTerminator (c : ascii) : bool :=
  Ascii.eqb c newline || Ascii.eqb c carriageReturn.

Definition decimalDigit (c : ascii) : bool :=
  ((48 <=? nat_of_ascii c) && (nat_of_ascii c <=? 57))%nat.

(** Modelled from the spec: the character a backslash followed by [d]
    stands for in the host's language. The listed characters stand for
    themselves, [b f n r t v] for the control characters they name, any
    other character but a digit, [x], [u] or a line terminator for itself.
    The numeric escapes (a digit, [x], [u]) are not read. *)
Definition escapeValue (d : ascii) : option ascii :=
  if escapable d then Some d
  else if Ascii.eqb d "b" then Some "008"%char
  else if Ascii.eqb d "t" then Some "009"%char
  else if Ascii.eqb d "n" then Some newline
  else if Ascii.eqb d "v" then Some "011"%char
  else if Ascii.eqb d "f" then Some "012"%char
  else if Ascii.eqb d "r" then Some carriageReturn
  else if decimalDigit d || Ascii.eqb d "x" || Ascii.eqb d "u"
          || lineTerminator d then None
  else Some d.

(** Modelled from the spec: the host's reading of a string literal, which
    is not in the repository. [readLiteral q s] reads [s] from just after
    the opening quote [q] and returns the text of the literal and what
    follows its closing quote. A literal that never closes is not read, and
    neither is one with a bare line terminator or with a backslash that
    [escapeValue] does not read. *)
Fixpoint readLiteral (q : ascii) (s : string) : option (string * string) :=
  match s with
  | EmptyString => None
  | String c rest =>
      if Ascii.eqb c q then Some (EmptyString, rest)
      else if Ascii.eqb c backslash then
        match rest with
        | EmptyString => None
        | String d rest' =>
            match escapeValue d, readLiteral q rest' with
            | Some x, Some (text, tail) => Some (String x text, tail)
            | _, _ => None
            end
        end
      else if lineTerminator c then None
      else
        match readLiteral q rest with
        | Some (text, tail) => Some (String c text, tail)
        | None => None
        end
  end.

Fixpoint stripPrefix (prefix s : string) : option string :=
  match prefix, s with
  | EmptyString, _ => Some s
  | String a prefix', String b s' =>
      if Ascii.eqb a b then stripPrefix prefix' s' else None
  | String _ _, EmptyString => None
  end.

(** Modelled from the spec: the host's reading of a script of the form
    [proc('...')], a call of the host procedure [proc] with one string
    literal; the result is the argument [proc] receives. *)
Definition hostArgument (proc script : string) : option string :=
  match stripPrefix (proc +:+ "('") script with
  | Some rest =>
      match readLiteral squote rest with
      | Some (text, tail) => if String.eqb tail ")" then Some text else None
      | None => None
      end
  | None => None
  end.

(** *** Notions used to state the properties *)

(** What [EscapeStringForJSX] makes of one character. *)
Definition escapeChar (c : ascii) : string :=
  if Ascii.eqb c backslash then String backslash (String backslash EmptyString)
  else if Ascii.eqb c squote then String backslash (String squote EmptyString)
  else if Ascii.eqb c dquote then String backslash (String dquote EmptyString)
  else String c EmptyString.

Definition isQuote (q : ascii) : Prop := q = squote \/ q = dquote.

(** Whether a line feed or a carriage return occurs in [s]. *)
Fixpoint hasLineTerminator (s : string) : bool :=
  match s with
  | EmptyString => false
  | String c rest => lineTerminator c || hasLineTerminator rest
  end.


(** The path of the scenario: [C:\temp\a"b.psd"]. *)
Definition scenarioPath : string :=
  "C:\temp\a" +:+ String dquote "b.psd" +:+ String dquote EmptyString.

(** Its escaped form: [C:\\temp\\a\"b.psd\"]. *)
Definition scenarioEscaped : string :=
  "C:\\temp\\a" +:+ String backslash (String dquote "b.psd")
  +:+ String backslash (String dquote EmptyString).

(** A group name with a quote in it: [a'b]. *)
Definition quoteName : string := "a'b".





End Photoshop.


(** ** The Harmony shim *)

Module AvalonHarmony.

Import JS.

(** An entry of the scene's metadata table, as [scene.setMetadata] takes it. *)
Record Metadata : Type := mkMetadata {
  name : string;
  type : string;
  creator : string;
  version : string;
  value : Value
}.

(** The part of Harmony the functions below touch: the scene's metadata
    table by entry name, the columns by name with their type, and the
    [node.setEnable(node, state)] calls received so far, oldest first. *)
Record Harmony : Type := mkHarmony {
  sceneMetadata : gmap string Metadata;
  columns : gmap string string;
  setEnableCalls : list (Value * Value)
}.

(** [scene.metadata(name)]: the entry, or nothing. *)
Definition scene_metadata (key : string) (h : Harmony) : option Metadata :=
  sceneMetadata h !! key.

(** [scene.setMetadata(entry)]: stores the entry under its name. *)
Definition scene_setMetadata (entry : Metadata) (h : Harmony) : Harmony :=
  mkHarmony (<[name entry := entry]> (sceneMetadata h))
            (columns h) (setEnableCalls h).

(** [node.setEnable(node, state)]. *)
Definition node_setEnable (node state : Value) (h : Harmony) : Harmony :=
  mkHarmony (sceneMetadata h) (columns h)
            (setEnableCalls h ++ [(node, state)])%list.

(** [column.type(name)]: the type of the column, the empty string when
    there is no such column. *)
Definition column_type (columnName : string) (h : Harmony) : string :=
  default EmptyString (columns h !! columnName).

(** Truth of a string in a condition: every string but the empty one. *)
Definition truthy (s : string) : bool :=
  negb (String.eqb s EmptyString).

(** [a[i]]: the element, [undefined] past the end. *)
Definition index (a : list Value) (i : nat) : Value :=
  default Undefined (a !! i).

Section SceneData.

(** The built-in [JSON] object. [JSON.stringify] yields a string, or
    [undefined] when there is nothing to write; [JSON.parse] yields a value
    or throws (no value). *)
Variable JSON_stringify : Value -> Value.
Variable JSON_parse : Value -> option Value.

Definition getSceneData (h : Harmony) : option Value :=
  match scene_metadata "avalon" h with
  | Some metadata => JSON_parse (value metadata)
  | None => Some (Obj [])
  end.

Definition setSceneData (metadata : Value) (h : Harmony) : Harmony :=
  scene_setMetadata
    (mkMetadata "avalon" "string" "Avalon" "1.0" (JSON_stringify metadata)) h.

End SceneData.

(** [setState(args)] with [args = [nodes, states]], both arrays. The loop
    runs [i] from [0] to [nodes.length - 1]. *)
Definition setState (nodes states : list Value) (h : Harmony)
  : bool * Harmony :=
  if negb (length nodes =? length states)%nat then (false, h)
  else
    (true,
     foldl (fun h i => node_setEnable (index nodes i) (index states i) h)
           h (seq 0 (length nodes))).

Definition disableNodes (nodes : list Value) (h : Harmony) : Harmony :=
  foldl (fun h i => node_setEnable (index nodes i) (Bool false) h)
        h (seq 0 (length nodes)).

(** The [while (suffix < 2000)] loop of [getUniqueColumnName], one round
    per unit of [fuel]. It returns the names it passed to [column.type], in
    order, and the value of [columnName] when the loop is left; no value
    when the fuel runs out first. *)
Fixpoint uniqueColumnLoop (fuel : nat) (h : Harmony) (columnPrefix : string)
    (suffix : Z) (columnName : string) (examined : list string)
  : option (list string * string) :=
  match fuel with
  | O => None
  | S fuel' =>
      if (suffix <? 2000)%Z then
        if negb (truthy (column_type columnName h)) then
          Some ((examined ++ [columnName])%list, columnName)
        else
          let suffix := (suffix + 1)%Z in
          uniqueColumnLoop fuel' h columnPrefix suffix
            (columnPrefix +:+ "_" +:+ pretty suffix)
            (examined ++ [columnName])%list
      else Some (examined, columnName)
  end.

Definition getUniqueColumnName (fuel : nat) (h : Harmony)
    (columnPrefix : string) : option (list string * string) :=
  uniqueColumnLoop fuel h columnPrefix 0 columnPrefix [].

(** *** Notions used to state the properties *)

(** The calls a list of (node, state) pairs adds to the record. *)
Definition withCalls (h : Harmony) (calls : list (Value * Value)) : Harmony :=
  mkHarmony (sceneMetadata h) (columns h) (setEnableCalls h ++ calls)%list.

(** A container record, and a scene that holds nothing yet. *)
Definition sampleData : Value :=
  Obj [ ("schema", Str "avalon-core:container-2.0");
        ("id", Str "pyblish.avalon.container");
        ("nodes", Arr [Str "Top/hero_rigMain"; Str "Top/hero_rigMain/Drawing"]);
        ("version", Num 3) ].

Definition emptyScene : Harmony := mkHarmony ∅ ∅ [].

Definition twoColumns : Harmony :=
  mkHarmony ∅ (<["ATTR" := "BEZIER"]> (<["ATTR_1" := "BEZIER"]> ∅)) [].

(** The names the function considers: the prefix itself, then the prefix
    followed by [_1], [_2], ... *)
Definition candidate (columnPrefix : string) (k : nat) : string :=
  match k with
  | O => columnPrefix
  | S _ => columnPrefix +:+ "_" +:+ pretty (Z.of_nat k)
  end.

(** A column of that name exists: [column.type] names a type for it. *)
Definition columnExists (h : Harmony) (columnName : string) : bool :=
  truthy (column_type columnName h).

End AvalonHarmony.

(** ** Further notions for the panel's scripts *)

Module PhotoshopNotions.

Import JS Photoshop.

(** The characters [EscapeStringForJSX] replaces. *)
Definition replaced (c : ascii) : bool :=
  Ascii.eqb c backslash || Ascii.eqb c squote || Ascii.eqb c dquote.

(** How many characters of [s] satisfy [p]. *)
Fixpoint count (p : ascii -> bool) (s : string) : nat :=
  match s with
  | EmptyString => O
  | String c rest => (if p c then 1 else 0) + count p rest
  end.


(** Whether the payload has the field [key]. *)
Fixpoint hasField (key : string) (data : Data) : bool :=
  match data with
  | [] => false
  | (k, _) :: rest => String.eqb k key || hasField key rest
  end.



(** Taking the backslashes of an escaped text off again: the character
    after a backslash is kept, whatever it is. *)
Fixpoint unescape (s : string) : string :=
  match s with
  | EmptyString => EmptyString
  | String c rest =>
      if Ascii.eqb c backslash then
        match rest with
        | String d rest' => String d (unescape rest')
        | EmptyString => EmptyString
        end
      else String c (unescape rest)
  end.








End PhotoshopNotions.

(** ** More of the Harmony shim

    The functions of [AvalonHarmony.js] that read the views, the selection
    and the nodes. What Harmony offers them ([view], [selection], [node])
    is a parameter of each section. *)

Module AvalonHarmonyNodes.

Import JS AvalonHarmony.

Section Views.

(** [view.type(name)] and [view.group(name)]. *)
Variable view_type : string -> string.
Variable view_group : string -> string.

(** What [getCurrentGroup] ends with: the alert and no value, the root of
    the scene, or the node at a group path. *)
Inductive CurrentGroup : Type :=
| Alerted
| Root
| GroupNode (path : string).

(** The [for (i = 0; i < 200; i++)] loop, one round per unit of [fuel]:
    the value of [nodeView] when the loop is left. *)
Fixpoint nodeViewLoop (fuel : nat) (i : Z) (nodeView : string)
  : option string :=
  match fuel with
  | O => None
  | S fuel' =>
      if (i <? 200)%Z then
        let nodeView := "View" +:+ pretty i in
        if String.eqb (view_type nodeView) "Node View" then Some nodeView
        else nodeViewLoop fuel' (i + 1)%Z nodeView
      else Some nodeView
  end.

Definition getCurrentGroup (fuel : nat) : option CurrentGroup :=
  match nodeViewLoop fuel 0 EmptyString with
  | None => None
  | Some nodeView =>
      if negb (truthy nodeView) then Some Alerted
      else if negb (truthy nodeView) then Some Root
      else Some (GroupNode (view_group nodeView))
  end.

End Views.

Section Selection.

(** The [selection] object over some state of the host. *)
Variable Host : Type.
Variable selection_numberOfNodesSelected : Host -> nat.
Variable selection_selectedNode : nat -> Host -> Value.
Variable selection_clearSelection : Host -> Host.
Variable selection_addNodeToSelection : Value -> Host -> Host.



End Selection.

Section Nodes.

(** [node.getEnable(node)], [node.getNodes(type)] and [node.getName(node)]. *)
Variable node_getEnable : Value -> Harmony -> Value.
Variable node_getNodes : Value -> Harmony -> list Value.
Variable node_getName : Value -> Harmony -> Value.

Definition areEnabled (nodes : list Value) (h : Harmony) : list Value :=
  foldl (fun states i => (states ++ [node_getEnable (index nodes i) h])%list)
        [] (seq 0 (length nodes)).

Definition getNodesNamesByType (nodeType : Value) (h : Harmony) : list Value :=
  let nodes := node_getNodes nodeType h in
  foldl (fun nodeNames i => (nodeNames ++ [node_getName (index nodes i) h])%list)
        [] (seq 0 (length nodes)).

End Nodes.

(** *** Notions used to state the properties *)

(** The name of the [k]-th view. *)
Definition viewName (k : nat) : string := "View" +:+ pretty (Z.of_nat k).


(** Views of which the third is a Node View. *)
Definition thirdIsNodeView (viewName : string) : string :=
  if String.eqb viewName "View2" then "Node View" else "Timeline".

End AvalonHarmonyNodes.

(** * Properties of the Photoshop panel *)

Module PhotoshopTheory.

Import JS Photoshop.

(** ** Text lemmas *)

Lemma app_assoc (s t u : string) : (s +:+ t) +:+ u = s +:+ (t +:+ u).
Proof.
  induction s as [|c s IH]; [reflexivity|].
  change (String c ((s +:+ t) +:+ u) = String c (s +:+ (t +:+ u))).
  now rewrite IH.
Qed.

Lemma app_cons (c : ascii) (s t : string) :
  String c s +:+ t = String c (s +:+ t).
Proof. reflexivity. Qed.

Lemma replaceAll_cons (c x : ascii) (by_ s : string) :
  replaceAll c by_ (String x s)
  = (if Ascii.eqb x c then by_ else String x EmptyString)
    +:+ replaceAll c by_ s.
Proof. reflexivity. Qed.

Lemma replaceAll_app (c : ascii) (by_ s t : string) :
  replaceAll c by_ (s +:+ t) = replaceAll c by_ s +:+ replaceAll c by_ t.
Proof.
  induction s as [|x s IH]; [reflexivity|].
  rewrite app_cons, !replaceAll_cons, IH.
  now rewrite app_assoc.
Qed.

Lemma EscapeStringForJSX_char (c : ascii) :
  EscapeStringForJSX (String c EmptyString) = escapeChar c.
Proof.
  unfold EscapeStringForJSX, escapeChar.
  rewrite replaceAll_cons.
  destruct (Ascii.eqb_spec c backslash) as [->|Hb]; [reflexivity|].
  change (replaceAll backslash _ EmptyString) with EmptyString.
  change (String c EmptyString +:+ EmptyString) with (String c EmptyString).
  rewrite replaceAll_cons.
  destruct (Ascii.eqb_spec c squote) as [->|Hs]; [reflexivity|].
  change (replaceAll squote _ EmptyString) with EmptyString.
  change (String c EmptyString +:+ EmptyString) with (String c EmptyString).
  rewrite replaceAll_cons.
  destruct (Ascii.eqb_spec c dquote) as [->|Hd]; reflexivity.
Qed.

(** The three passes together work character by character. *)
Lemma EscapeStringForJSX_app (s t : string) :
  EscapeStringForJSX (s +:+ t) = EscapeStringForJSX s +:+ EscapeStringForJSX t.
Proof. unfold EscapeStringForJSX. now rewrite !replaceAll_app. Qed.

Lemma EscapeStringForJSX_cons (c : ascii) (s : string) :
  EscapeStringForJSX (String c s) = escapeChar c +:+ EscapeStringForJSX s.
Proof.
  change (String c s) with (String c EmptyString +:+ s).
  now rewrite EscapeStringForJSX_app, EscapeStringForJSX_char.
Qed.

(** ** Reading an escaped text back *)


(** One character of the argument that ends no line: the host reads its
    escaped form as that character. *)
Lemma readLiteral_escapeChar (q c : ascii) (t : string) :
  isQuote q -> lineTerminator c = false ->
  readLiteral q (escapeChar c +:+ t)
  = match readLiteral q t with
    | Some (text, tail) => Some (String c text, tail)
    | None => None
    end.
Proof.
  intros Hq Hc. unfold escapeChar.
  destruct (Ascii.eqb_spec c backslash) as [->|Hb].
  { destruct Hq as [-> | ->]; reflexivity. }
  destruct (Ascii.eqb_spec c squote) as [->|Hs].
  { destruct Hq as [-> | ->]; reflexivity. }
  destruct (Ascii.eqb_spec c dquote) as [->|Hd].
  { destruct Hq as [-> | ->]; reflexivity. }
  rewrite app_cons. change (EmptyString +:+ t) with t.
  cbn [readLiteral].
  assert (Ascii.eqb c q = false) as ->.
  { apply Ascii.eqb_neq. destruct Hq as [-> | ->]; assumption. }
  apply Ascii.eqb_neq in Hb. now rewrite Hb, Hc.
Qed.


Lemma readLiteral_escaped (q : ascii) (s rest : string) :
  isQuote q -> hasLineTerminator s = false ->
  readLiteral q (EscapeStringForJSX s +:+ String q rest) = Some (s, rest).
Proof.
  intros Hq. induction s as [|c s IH]; intros Hs.
  - change (readLiteral q (String q rest) = Some (EmptyString, rest)).
    cbn [readLiteral]. now rewrite Ascii.eqb_refl.
  - cbn [hasLineTerminator] in Hs. apply orb_false_elim in Hs as [Hc Hs].
    rewrite EscapeStringForJSX_cons, app_assoc.
    rewrite readLiteral_escapeChar by assumption.
    now rewrite IH.
Qed.





Lemma stripPrefix_app (p s : string) : stripPrefix p (p +:+ s) = Some s.
Proof.
  induction p as [|c p IH]; [now destruct s|].
  rewrite app_cons. cbn [stripPrefix]. now rewrite Ascii.eqb_refl.
Qed.

(** A one-argument call built from the escaped form of a text without
    line terminators hands the host the original text. *)
Lemma hostArgument_escaped (proc s : string) :
  hasLineTerminator s = false ->
  hostArgument proc (proc +:+ "('" +:+ EscapeStringForJSX s +:+ "')") = Some s.
Proof.
  intros Hs. unfold hostArgument.
  rewrite <- (app_assoc proc "('"), stripPrefix_app.
  change "')" with (String squote ")").
  rewrite readLiteral_escaped by (try exact Hs; left; reflexivity).
  reflexivity.
Qed.

(** ** The scripts of the routes *)

Lemma open_script (data : Data) (path : string) :
  get data "path" = Str path ->
  scriptOf (route_open data)
  = Some ("fileOpen('" +:+ EscapeStringForJSX path +:+ "')").
Proof. intros H. unfold scriptOf, route_open. now rewrite H. Qed.

(** A path without line terminators reaches the host procedure behind
    [open] as the caller sent it. *)
Lemma open_host_receives_path (data : Data) (path : string) :
  get data "path" = Str path -> hasLineTerminator path = false ->
  exists script,
    scriptOf (route_open data) = Some script
    /\ hostArgument "fileOpen" script = Some path.
Proof.
  intros H Hpath. eexists. split; [apply (open_script data path H)|].
  exact (hostArgument_escaped "fileOpen" path Hpath).
Qed.

Lemma import_smart_object_script (data : Data) (path : string) :
  get data "path" = Str path ->
  scriptOf (route_import_smart_object data)
  = Some ("importSmartObject('" +:+ EscapeStringForJSX path +:+ "')").
Proof. intros H. unfold scriptOf, route_import_smart_object. now rewrite H. Qed.

Lemma create_group_script (data : Data) :
  scriptOf (route_create_group data)
  = Some ("createGroup('" +:+ ToString (get data "name") +:+ "')").
Proof. reflexivity. Qed.

Lemma group_selected_layers_script (data : Data) :
  scriptOf (route_group_selected_layers data)
  = Some ("groupSelectedLayers(null, '" +:+ ToString (get data "name")
          +:+ "')").
Proof. reflexivity. Qed.

(** C3. For the path [C:\temp\a"b.psd"], [EscapeStringForJSX] yields
    [C:\\temp\\a\"b.psd\"] (each backslash doubled, each double quote
    preceded by a backslash); the [open] route hands the host exactly
    [fileOpen('] followed by that text and [')]; and the host, reading the
    argument of that script, receives the original path. *)
Theorem open_scenario :
  EscapeStringForJSX scenarioPath = scenarioEscaped
  /\ scriptOf (route_open [("path", Str scenarioPath)])
     = Some ("fileOpen('" +:+ scenarioEscaped +:+ "')")
  /\ hostArgument "fileOpen" ("fileOpen('" +:+ scenarioEscaped +:+ "')")
     = Some scenarioPath.
Proof.
  assert (EscapeStringForJSX scenarioPath = scenarioEscaped) as He
    by reflexivity.
  split; [exact He|]. split.
  - rewrite <- He. now apply open_script.
  - rewrite <- He. exact (hostArgument_escaped "fileOpen" scenarioPath eq_refl).
Qed.

(** C1 (the code departs from it). The [create_group] and
    [group_selected_layers] routes put [data.name] into their script as it
    is: for the name [a'b] the scripts are [createGroup('a'b')] and
    [groupSelectedLayers(null, 'a'b')], not the scripts built from
    [EscapeStringForJSX], and the host's reading of the [createGroup]
    literal stops after [a]. *)
Theorem create_group_not_escaped :
  scriptOf (route_create_group [("name", Str quoteName)])
    = Some "createGroup('a'b')"
  /\ scriptOf (route_group_selected_layers [("name", Str quoteName)])
    = Some "groupSelectedLayers(null, 'a'b')"
  /\ "createGroup('a'b')"
     <> "createGroup('" +:+ EscapeStringForJSX quoteName +:+ "')"
  /\ readLiteral squote "a'b')" = Some ("a", "b')")
  /\ hostArgument "createGroup" "createGroup('a'b')" = None.
Proof.
  repeat split; try reflexivity.
  intros H. discriminate H.
Qed.

(** C4 (the code departs from it). The [select_layers] route never reads
    its payload: whatever the payload, the one script it hands to the host
    is [selectLayers()], so two payloads with different layer ids send the
    host the same scripts. *)
Theorem select_layers_ignores_payload (data data' : Data)
    (replies : list HostReply) :
  scriptOf (route_select_layers data) = Some "selectLayers()"
  /\ dispatched (run (route_select_layers data) replies)
     = dispatched (run (route_select_layers data') replies).
Proof.
  split; [reflexivity|].
  destruct replies; reflexivity.
Qed.

(** ** One script per call *)

Lemma routes_RPC : routes RPC = registrations.
Proof. reflexivity. Qed.








(** ** The routes table *)

(** C7. The method names the panel script passes to [addRoute] are
    pairwise distinct: each is registered exactly once. *)
Theorem route_names_registered_once :
  NoDup (map fst registrations) /\ NoDup (map fst (routes RPC)).
Proof.
  rewrite routes_RPC.
  assert (NoDup (map fst registrations)) as H.
  { apply (bool_decide_unpack _). vm_compute. exact I. }
  split; exact H.
Qed.

(** C8. The channel object is created with the address
    [ws://localhost:8099/ws/] and the number 5000 as its second argument. *)
Theorem connection_window_5000 :
  timeout RPC = 5000%Z
  /\ timeout (new_WSRPC "ws://localhost:8099/ws/" 5000) = 5000%Z
  /\ url RPC = "ws://localhost:8099/ws/".
Proof. repeat split. Qed.

End PhotoshopTheory.

(** * Properties of the Harmony shim *)

Module HarmonyTheory.

Import JS AvalonHarmony.

Local Open Scope list_scope.

(** ** [setState] *)

Lemma withCalls_nil (h : Harmony) : withCalls h [] = h.
Proof. destruct h as [m c e]. unfold withCalls. cbn. now rewrite app_nil_r. Qed.

Lemma index_app_here (pre a : list Value) (x : Value) :
  index (pre ++ x :: a) (length pre) = x.
Proof. unfold index. now rewrite list_lookup_middle. Qed.

(** The loop over [i], started at [length pre] on arrays that begin with
    the already visited elements [pre] and [pre']. *)
Lemma setEnable_loop (nodes states : list Value) :
  length nodes = length states ->
  forall (pre pre' : list Value) (h : Harmony),
    length pre = length pre' ->
    foldl (fun h i =>
             node_setEnable (index (pre ++ nodes) i) (index (pre' ++ states) i) h)
          h (seq (length pre) (length nodes))
    = withCalls h (zip nodes states).
Proof.
  revert states.
  induction nodes as [|n nodes IH]; intros [|s states] Hlen pre pre' h Hpre;
    try discriminate Hlen.
  - cbn. now rewrite withCalls_nil.
  - cbn [length seq foldl].
    rewrite index_app_here. rewrite Hpre, index_app_here.
    injection Hlen as Hlen.
    specialize (IH states Hlen (pre ++ [n]) (pre' ++ [s])
                  (node_setEnable n s h)).
    rewrite !length_app in IH. cbn [length] in IH.
    rewrite <- !Hpre in IH. rewrite Nat.add_1_r in IH.
    rewrite <- !app_assoc in IH. cbn [app] in IH.
    rewrite <- Hpre. rewrite IH by reflexivity.
    unfold withCalls, node_setEnable. cbn.
    now rewrite <- app_assoc.
Qed.

(** C5. When the two arrays differ in length, [setState] answers [false]
    and leaves Harmony as it was: no [node.setEnable] call is made, not even
    for a first part of the arrays. When they have the same length it
    answers [true] after calling [node.setEnable(nodes[i], states[i])] for
    every [i], in order, and nothing else. *)
Theorem setState_all_or_nothing (nodes states : list Value) (h : Harmony) :
  (length nodes <> length states -> setState nodes states h = (false, h))
  /\ (length nodes = length states ->
      setState nodes states h = (true, withCalls h (zip nodes states))).
Proof.
  unfold setState. split; intros Hlen.
  - apply Nat.eqb_neq in Hlen. now rewrite Hlen.
  - rewrite (proj2 (Nat.eqb_eq _ _) Hlen). cbn [negb]. f_equal.
    exact (setEnable_loop nodes states Hlen [] [] h eq_refl).
Qed.

(** Two nodes with one state, and two nodes with two states. *)
Lemma setState_all_or_nothing_witness :
  setState [Str "Top/a"; Str "Top/b"] [Bool true] emptyScene
    = (false, emptyScene)
  /\ setState [Str "Top/a"; Str "Top/b"] [Bool true; Bool false] emptyScene
     = (true,
        withCalls emptyScene
          [(Str "Top/a", Bool true); (Str "Top/b", Bool false)]).
Proof.
  split.
  - apply (proj1 (setState_all_or_nothing
                    [Str "Top/a"; Str "Top/b"] [Bool true] emptyScene)).
    cbn. lia.
  - apply (proj2 (setState_all_or_nothing
                    [Str "Top/a"; Str "Top/b"] [Bool true; Bool false]
                    emptyScene)).
    reflexivity.
Defined.

(** ** Scene data *)

Section SceneData.

Variable JSON_stringify : Value -> Value.
Variable JSON_parse : Value -> option Value.

Lemma metadata_after_set (entry : Metadata) (h : Harmony) :
  scene_metadata (name entry) (scene_setMetadata entry h) = Some entry.
Proof. unfold scene_metadata, scene_setMetadata. cbn. apply lookup_insert_eq. Qed.

(** C9. A metadata object that [JSON.parse] gives back from its
    [JSON.stringify] text is what [getSceneData] returns after
    [setSceneData] stored it; and on a scene without an [avalon] metadata
    entry [getSceneData] returns the empty object, without failing. *)
Theorem sceneData_roundtrip (m : Value) (h : Harmony) :
  (JSON_parse (JSON_stringify m) = Some m ->
   getSceneData JSON_parse (setSceneData JSON_stringify m h) = Some m)
  /\ (scene_metadata "avalon" h = None ->
      getSceneData JSON_parse h = Some (Obj [])).
Proof.
  split.
  - intros Hjson. unfold getSceneData, setSceneData.
    pose proof (metadata_after_set
      (mkMetadata "avalon" "string" "Avalon" "1.0" (JSON_stringify m)) h) as Hm.
    cbn [name] in Hm. rewrite Hm. exact Hjson.
  - intros Hnone. unfold getSceneData. now rewrite Hnone.
Qed.

End SceneData.

Lemma sceneData_roundtrip_witness :
  getSceneData JSON.parse (setSceneData JSON.stringify sampleData emptyScene)
    = Some sampleData
  /\ getSceneData JSON.parse emptyScene = Some (Obj []).
Proof.
  split.
  - apply (proj1 (sceneData_roundtrip JSON.stringify JSON.parse
                    sampleData emptyScene)).
    vm_compute. reflexivity.
  - apply (proj2 (sceneData_roundtrip JSON.stringify JSON.parse
                    sampleData emptyScene)).
    reflexivity.
Defined.

(** ** [getUniqueColumnName] *)

Lemma candidate_next (columnPrefix : string) (k : nat) :
  columnPrefix +:+ "_" +:+ pretty (Z.of_nat k + 1)%Z
  = candidate columnPrefix (S k).
Proof.
  unfold candidate. now replace (Z.of_nat k + 1)%Z with (Z.of_nat (S k)) by lia.
Qed.

Lemma candidate_2000 (columnPrefix : string) :
  candidate columnPrefix 2000 = columnPrefix +:+ "_2000".
Proof.
  unfold candidate.
  assert (pretty (Z.of_nat 2000) = "2000") as -> by (vm_compute; reflexivity).
  reflexivity.
Qed.

(** The loop entered with [suffix = k] and [columnName] the [k]-th
    candidate, all earlier candidates being taken: it stops at some
    candidate [k'], having examined the candidates from [k] up to [k'] (up
    to 1999 at most). *)
Lemma uniqueColumnLoop_spec (h : Harmony) (columnPrefix : string) :
  forall (fuel k : nat) (examined : list string),
    k <= 2000 -> 2000 - k < fuel ->
    (forall j, j < k -> columnExists h (candidate columnPrefix j) = true) ->
    exists k',
      k <= k' <= 2000
      /\ uniqueColumnLoop fuel h columnPrefix (Z.of_nat k)
           (candidate columnPrefix k) examined
         = Some (examined
                 ++ map (candidate columnPrefix) (seq k (Nat.min (S k') 2000 - k)),
                 candidate columnPrefix k')
      /\ (forall j, j < k' -> columnExists h (candidate columnPrefix j) = true)
      /\ (k' < 2000 -> columnExists h (candidate columnPrefix k') = false).
Proof.
  induction fuel as [|fuel IH]; intros k examined Hk Hfuel Htaken; [lia|].
  cbn [uniqueColumnLoop].
  destruct (Z.ltb_spec (Z.of_nat k) 2000) as [Hlt | Hge].
  - assert (k < 2000) as Hk' by lia.
    fold (columnExists h (candidate columnPrefix k)).
    destruct (columnExists h (candidate columnPrefix k)) eqn:Hex; cbn [negb].
    + rewrite candidate_next.
      destruct (IH (S k) (examined ++ [candidate columnPrefix k]))
        as (k' & Hrange & Hrun & Hbefore & Hfree); [lia | lia | |].
      { intros j Hj. destruct (decide (j = k)) as [-> | Hne];
          [exact Hex | apply Htaken; lia]. }
      exists k'. split; [lia|]. split; [|split; assumption].
      replace (Z.of_nat k + 1)%Z with (Z.of_nat (S k)) by lia.
      rewrite Hrun. f_equal. f_equal.
      replace (Nat.min (S k') 2000 - k) with (S (Nat.min (S k') 2000 - S k))
        by lia.
      cbn [seq map]. now rewrite <- app_assoc.
    + exists k. split; [lia|]. split; [|split; [exact Htaken | intros _; exact Hex]].
      replace (Nat.min (S k) 2000 - k) with 1 by lia. reflexivity.
  - assert (k = 2000) as -> by lia.
    exists 2000. split; [lia|]. split; [|split; [exact Htaken | lia]].
    replace (Nat.min (S 2000) 2000 - 2000) with 0 by lia.
    cbn [seq map]. now rewrite app_nil_r.
Qed.

(** C10. With enough fuel for 2001 rounds the loop always ends. The names
    it passes to [column.type] are at most 2001, and they are the first
    candidates, in order, of the list: prefix, prefix_1, ..., prefix_2000.
    The result is the first candidate of that list for which no column
    exists; and when a column exists for every candidate, the result is
    prefix_2000 all the same. *)
Theorem getUniqueColumnName_bounded (h : Harmony) (columnPrefix : string)
    (fuel : nat) :
  2000 < fuel ->
  exists (examined : list string) (columnName : string),
    getUniqueColumnName fuel h columnPrefix = Some (examined, columnName)
    /\ length examined <= 2001
    /\ examined `prefix_of` map (candidate columnPrefix) (seq 0 2001)
    /\ (forall k,
          k <= 2000 ->
          columnExists h (candidate columnPrefix k) = false ->
          (forall j, j < k -> columnExists h (candidate columnPrefix j) = true) ->
          columnName = candidate columnPrefix k)
    /\ ((forall k, k <= 2000 ->
                   columnExists h (candidate columnPrefix k) = true) ->
        columnName = columnPrefix +:+ "_2000").
Proof.
  intros Hfuel.
  destruct (uniqueColumnLoop_spec h columnPrefix fuel 0 [])
    as (k' & Hrange & Hrun & Hbefore & Hfree); [lia | lia | intros j Hj; lia |].
  change (candidate columnPrefix 0) with columnPrefix in Hrun.
  change (Z.of_nat 0) with 0%Z in Hrun.
  rewrite Nat.sub_0_r in Hrun. cbn [app] in Hrun.
  exists (map (candidate columnPrefix) (seq 0 (Nat.min (S k') 2000))),
         (candidate columnPrefix k').
  split; [exact Hrun|]. split; [|split; [|split]].
  - rewrite length_map, length_seq. lia.
  - exists (map (candidate columnPrefix)
              (seq (Nat.min (S k') 2000) (2001 - Nat.min (S k') 2000))).
    rewrite <- map_app. f_equal.
    replace 2001 with (Nat.min (S k') 2000 + (2001 - Nat.min (S k') 2000))
      at 1 by lia.
    apply seq_app.
  - intros k Hk Hfreek Htakenk.
    destruct (Nat.lt_trichotomy k k') as [Hlt | [-> | Hgt]]; [|reflexivity|].
    + rewrite (Hbefore k Hlt) in Hfreek. discriminate Hfreek.
    + assert (k' < 2000) as Hk' by lia.
      rewrite (Htakenk k' Hgt) in Hfree. specialize (Hfree Hk').
      discriminate Hfree.
  - intros Hall.
    destruct (decide (k' = 2000)) as [-> | Hne]; [apply candidate_2000|].
    assert (k' < 2000) as Hk' by lia.
    rewrite (Hall k') in Hfree by lia. specialize (Hfree Hk').
    discriminate Hfree.
Qed.

(** A scene with the columns [ATTR] and [ATTR_1]. *)
Lemma getUniqueColumnName_bounded_witness :
  (2000 < 2001)%nat
  /\ exists examined columnName,
      getUniqueColumnName 2001 twoColumns "ATTR" = Some (examined, columnName)
      /\ length examined <= 2001
      /\ (columnExists twoColumns (candidate "ATTR" 2) = false ->
          columnName = candidate "ATTR" 2).
Proof.
  assert (2000 < 2001)%nat as Hfuel by lia.
  split; [exact Hfuel|].
  destruct (getUniqueColumnName_bounded twoColumns "ATTR" 2001 Hfuel)
    as (examined & columnName & Hrun & Hlen & _ & Hfirst & _).
  exists examined, columnName. split; [exact Hrun|]. split; [exact Hlen|].
  intros Hfree. apply (Hfirst 2); [lia | exact Hfree |].
  intros j Hj.
  destruct j as [|[|j]]; [vm_compute; reflexivity | vm_compute; reflexivity | lia].
Defined.

Example getUniqueColumnName_twoColumns :
  getUniqueColumnName 2001 twoColumns "ATTR"
  = Some (["ATTR"; "ATTR_1"; "ATTR_2"], "ATTR_2").
Proof. vm_compute. reflexivity. Qed.

(** The name [prefix_2000] is never passed to [column.type]: the loop
    examines 2000 names at most. *)
Lemma getUniqueColumnName_examines_2000 (h : Harmony) (columnPrefix : string)
    (fuel : nat) :
  2000 < fuel ->
  exists examined columnName,
    getUniqueColumnName fuel h columnPrefix = Some (examined, columnName)
    /\ length examined <= 2000.
Proof.
  intros Hfuel.
  destruct (uniqueColumnLoop_spec h columnPrefix fuel 0 [])
    as (k' & Hrange & Hrun & _); [lia | lia | intros j Hj; lia |].
  eexists _, _. split; [exact Hrun|].
  cbn [app]. rewrite length_map, length_seq. lia.
Qed.

End HarmonyTheory.

(** * Further properties of the Photoshop panel *)

Module PhotoshopMore.

Import JS Photoshop PhotoshopNotions PhotoshopTheory.

Lemma length_app (s t : string) :
  String.length (s +:+ t) = String.length s + String.length t.
Proof.
  induction s as [|c s IH]; [reflexivity|].
  rewrite app_cons. cbn [String.length]. now rewrite IH.
Qed.

Lemma escapeChar_length (c : ascii) :
  String.length (escapeChar c) = 1 + (if replaced c then 1 else 0).
Proof.
  unfold escapeChar, replaced.
  destruct (Ascii.eqb c backslash); [reflexivity|].
  destruct (Ascii.eqb c squote); [reflexivity|].
  destruct (Ascii.eqb c dquote); reflexivity.
Qed.

Lemma escape_length_count (s : string) :
  String.length (EscapeStringForJSX s) = String.length s + count replaced s.
Proof.
  induction s as [|c s IH]; [reflexivity|].
  rewrite EscapeStringForJSX_cons, length_app, escapeChar_length, IH.
  cbn [String.length count]. lia.
Qed.

Lemma escape_clean (s : string) :
  count replaced s = 0 -> EscapeStringForJSX s = s.
Proof.
  induction s as [|c s IH]; [reflexivity|].
  cbn [count]. intros H.
  rewrite EscapeStringForJSX_cons.
  assert (replaced c = false) as Hc by (destruct (replaced c); [lia | reflexivity]).
  rewrite IH by (rewrite Hc in H; exact H).
  unfold escapeChar. unfold replaced in Hc.
  apply orb_false_elim in Hc as [Hc Hd].
  apply orb_false_elim in Hc as [Hb Hs].
  now rewrite Hb, Hs, Hd.
Qed.

(** X1. [EscapeStringForJSX] adds one character for every backslash,
    single quote and double quote of its argument and none for any other
    character; it returns its argument unchanged exactly when the argument
    holds none of the three. *)
Theorem escape_length (s : string) :
  String.length (EscapeStringForJSX s) = String.length s + count replaced s
  /\ (EscapeStringForJSX s = s <-> count replaced s = 0).
Proof.
  split; [apply escape_length_count|]. split.
  - intros H. pose proof (escape_length_count s) as Hlen.
    rewrite H in Hlen. lia.
  - apply escape_clean.
Qed.

(** X2. Escaping a concatenation is concatenating the escaped parts, so a
    text can be escaped piece by piece. *)
Theorem escape_concat (s t : string) :
  EscapeStringForJSX (s +:+ t) = EscapeStringForJSX s +:+ EscapeStringForJSX t.
Proof. apply EscapeStringForJSX_app. Qed.

Lemma unescape_escapeChar (c : ascii) (t : string) :
  unescape (escapeChar c +:+ t) = String c (unescape t).
Proof.
  unfold escapeChar.
  destruct (Ascii.eqb_spec c backslash) as [->|Hb]; [reflexivity|].
  destruct (Ascii.eqb_spec c squote) as [->|Hs]; [reflexivity|].
  destruct (Ascii.eqb_spec c dquote) as [->|Hd]; [reflexivity|].
  rewrite app_cons. change (EmptyString +:+ t) with t.
  cbn [unescape]. apply Ascii.eqb_neq in Hb. now rewrite Hb.
Qed.

Lemma unescape_escaped (s : string) : unescape (EscapeStringForJSX s) = s.
Proof.
  induction s as [|c s IH]; [reflexivity|].
  now rewrite EscapeStringForJSX_cons, unescape_escapeChar, IH.
Qed.

(** X3. Two different arguments never have the same escaped text. *)
Theorem escape_injective (s t : string) :
  s <> t -> EscapeStringForJSX s <> EscapeStringForJSX t.
Proof.
  intros Hne Heq. apply Hne.
  rewrite <- (unescape_escaped s), <- (unescape_escaped t). now rewrite Heq.
Qed.

Lemma escape_injective_witness :
  EscapeStringForJSX "a\b" <> EscapeStringForJSX "a\\b".
Proof.
  apply (escape_injective "a\b" "a\\b"). intros H. discriminate H.
Defined.

(** ** The routes that escape a path *)





(** ** The [imprint] route *)










(** ** Missing fields *)

Lemma get_missing (data : Data) (key : string) :
  hasField key data = false -> get data key = Undefined.
Proof.
  induction data as [|[k v] data IH]; [reflexivity|].
  cbn [hasField get]. intros H. apply orb_false_elim in H as [Hk Hrest].
  rewrite Hk. now apply IH.
Qed.

(** X6. The routes that put a field into their script without calling
    [replace] on it do not notice a missing field: the text [undefined]
    takes its place in the script sent to the host. *)
Theorem missing_field_sent_as_undefined (data : Data) :
  (hasField "name" data = false ->
   scriptOf (route_create_group data) = Some "createGroup('undefined')"
   /\ scriptOf (route_group_selected_layers data)
      = Some "groupSelectedLayers(null, 'undefined')")
  /\ (hasField "layer_id" data = false ->
      hasField "visibility" data = false ->
      scriptOf (route_set_visible data) = Some "setVisible(undefined, undefined)").
Proof.
  split.
  - intros H. unfold scriptOf, route_create_group, route_group_selected_layers.
    rewrite (get_missing data "name" H). split; reflexivity.
  - intros Hl Hv. unfold scriptOf, route_set_visible.
    rewrite (get_missing data "layer_id" Hl), (get_missing data "visibility" Hv).
    reflexivity.
Qed.

Lemma missing_field_sent_as_undefined_witness :
  scriptOf (route_create_group [("layer", Str "Background")])
    = Some "createGroup('undefined')"
  /\ scriptOf (route_set_visible []) = Some "setVisible(undefined, undefined)".
Proof.
  split.
  - apply (proj1 (missing_field_sent_as_undefined [("layer", Str "Background")])).
    reflexivity.
  - apply (proj2 (missing_field_sent_as_undefined [])); reflexivity.
Defined.

End PhotoshopMore.

(** * Further properties of the Harmony shim *)

Module HarmonyMore.

Import JS AvalonHarmony AvalonHarmonyNodes HarmonyTheory.

Local Open Scope list_scope.

(** ** Loops that collect *)

Lemma push_loop {A B : Type} (g : A -> B) (xs : list A) (acc : list B) :
  foldl (fun acc x => acc ++ [g x]) acc xs = acc ++ map g xs.
Proof.
  revert acc. induction xs as [|x xs IH]; intros acc; cbn [foldl map].
  - now rewrite app_nil_r.
  - rewrite IH. now rewrite <- app_assoc.
Qed.

Lemma index_seq (l : list Value) : map (index l) (seq 0 (length l)) = l.
Proof.
  apply list_eq. intros i. rewrite list_lookup_fmap.
  destruct (decide (i < length l)) as [Hlt | Hge].
  - rewrite lookup_seq_lt by exact Hlt. cbn. unfold index.
    destruct (lookup_lt_is_Some_2 l i Hlt) as [x Hx]. now rewrite Hx.
  - rewrite lookup_seq_ge by lia. cbn. symmetry. apply lookup_ge_None. lia.
Qed.

Lemma collect_loop {B : Type} (f : Value -> B) (l : list Value) :
  foldl (fun acc i => acc ++ [f (index l i)]) [] (seq 0 (length l)) = map f l.
Proof.
  rewrite (push_loop (fun i => f (index l i))). cbn [app].
  rewrite <- (index_seq l) at 2. now rewrite map_map.
Qed.

Lemma act_loop {H : Type} (act : Value -> H -> H) (l : list Value) (h : H) :
  foldl (fun h i => act (index l i) h) h (seq 0 (length l))
  = foldl (fun h x => act x h) h l.
Proof.
  rewrite <- (index_seq l) at 2.
  generalize (seq 0 (length l)). intros idx. revert h.
  induction idx as [|i idx IH]; intros h; [reflexivity|].
  cbn [foldl map]. apply IH.
Qed.

Lemma zip_map_r {A B : Type} (f : A -> B) (l : list A) :
  zip l (map f l) = map (fun x => (x, f x)) l.
Proof. induction l as [|x l IH]; [reflexivity|]. cbn. now rewrite IH. Qed.

Lemma zip_replicate_r {A B : Type} (b : B) (l : list A) :
  zip l (replicate (length l) b) = map (fun x => (x, b)) l.
Proof. induction l as [|x l IH]; [reflexivity|]. cbn. now rewrite IH. Qed.

Lemma setState_same_length (nodes states : list Value) (h : Harmony) :
  length nodes = length states ->
  setState nodes states h = (true, withCalls h (zip nodes states)).
Proof.
  intros Hlen. unfold setState.
  rewrite (proj2 (Nat.eqb_eq _ _) Hlen). cbn [negb]. f_equal.
  exact (setEnable_loop nodes states Hlen [] [] h eq_refl).
Qed.

(** ** Enable states *)

Section Nodes.

Variable node_getEnable : Value -> Harmony -> Value.
Variable node_getNodes : Value -> Harmony -> list Value.
Variable node_getName : Value -> Harmony -> Value.

(** X7. [areEnabled] returns one state per node, the state of the [i]-th
    node at place [i]; and the states it returns are always accepted by
    [setState] for the same nodes, which then sets every node to the state
    that was read. *)
Theorem areEnabled_restorable (nodes : list Value) (h h' : Harmony) :
  areEnabled node_getEnable nodes h = map (fun n => node_getEnable n h) nodes
  /\ length (areEnabled node_getEnable nodes h) = length nodes
  /\ setState nodes (areEnabled node_getEnable nodes h) h'
     = (true, withCalls h' (map (fun n => (n, node_getEnable n h)) nodes)).
Proof.
  assert (areEnabled node_getEnable nodes h
          = map (fun n => node_getEnable n h) nodes) as Hmap.
  { unfold areEnabled. apply (collect_loop (fun n => node_getEnable n h)). }
  split; [exact Hmap|]. rewrite Hmap. split; [apply length_map|].
  rewrite setState_same_length by (now rewrite length_map).
  now rewrite zip_map_r.
Qed.

(** X9. [getNodesNamesByType] returns the names of the nodes that
    [node.getNodes] lists for the type, one per node and in the same
    order. *)
Theorem getNodesNamesByType_names (nodeType : Value) (h : Harmony) :
  getNodesNamesByType node_getNodes node_getName nodeType h
  = map (fun n => node_getName n h) (node_getNodes nodeType h).
Proof.
  unfold getNodesNamesByType.
  apply (collect_loop (fun n => node_getName n h)).
Qed.

End Nodes.

Lemma setEnable_all (b : Value) (l : list Value) (h : Harmony) :
  foldl (fun h x => node_setEnable x b h) h l
  = withCalls h (map (fun n => (n, b)) l).
Proof.
  revert h. induction l as [|x l IH]; intros h; cbn [foldl map].
  - now rewrite withCalls_nil.
  - rewrite IH. unfold withCalls, node_setEnable. cbn.
    now rewrite <- app_assoc.
Qed.

(** X8. [disableNodes] calls [node.setEnable(node, false)] once for every
    node of the array, in order, and nothing else; it leaves Harmony in the
    state [setState] reaches with the same nodes and a state [false] for
    each of them. *)
Theorem disableNodes_is_setState_false (nodes : list Value) (h : Harmony) :
  disableNodes nodes h = withCalls h (map (fun n => (n, Bool false)) nodes)
  /\ setState nodes (replicate (length nodes) (Bool false)) h
     = (true, disableNodes nodes h).
Proof.
  assert (disableNodes nodes h
          = withCalls h (map (fun n => (n, Bool false)) nodes)) as Hd.
  { unfold disableNodes.
    rewrite (act_loop (fun x h => node_setEnable x (Bool false) h)).
    apply setEnable_all. }
  split; [exact Hd|].
  rewrite setState_same_length by (now rewrite length_replicate).
  now rewrite zip_replicate_r, Hd.
Qed.

(** ** The selection *)

Section Selection.

Variable Host : Type.
Variable count : Host -> nat.
Variable selected : nat -> Host -> Value.
Variable clear : Host -> Host.
Variable add : Value -> Host -> Host.



(** What Harmony's selection has to do for the two functions to agree: it
    is empty once cleared, and a node added to it comes last. *)
Hypothesis count_clear : forall h, count (clear h) = 0.
Hypothesis count_add : forall v h, count (add v h) = S (count h).
Hypothesis selected_last : forall v h, selected (count h) (add v h) = v.
Hypothesis selected_before :
  forall v h i, i < count h -> selected i (add v h) = selected i h.



End Selection.


(** ** The current group *)

Section Views.

Variable view_type : string -> string.
Variable view_group : string -> string.

(** The loop entered with [i = k], no view before the [k]-th being a Node
    View: it is left with the name of the first Node View from [k] on, or
    with [View199]. *)
Lemma nodeViewLoop_spec :
  forall (fuel k : nat) (nodeView : string),
    k <= 200 -> 200 - k < fuel ->
    (k = 200 -> nodeView = viewName 199) ->
    (forall j, j < k -> view_type (viewName j) <> "Node View") ->
    exists k',
      k' <= 199
      /\ nodeViewLoop view_type fuel (Z.of_nat k) nodeView = Some (viewName k')
      /\ (forall j, j < k' -> view_type (viewName j) <> "Node View")
      /\ (k' < 199 -> view_type (viewName k') = "Node View").
Proof.
  induction fuel as [|fuel IH]; intros k nodeView Hk Hfuel Hlast Hnone; [lia|].
  cbn [nodeViewLoop].
  destruct (Z.ltb_spec (Z.of_nat k) 200) as [Hlt | Hge].
  - fold (viewName k).
    destruct (String.eqb_spec (view_type (viewName k)) "Node View") as [Heq | Hne].
    + exists k. split; [lia|]. split; [reflexivity|]. split; [exact Hnone|].
      intros _. exact Heq.
    + replace (Z.of_nat k + 1)%Z with (Z.of_nat (S k)) by lia.
      apply IH; [lia | lia | intros Hk'; f_equal; lia |].
      intros j Hj. destruct (decide (j = k)) as [-> | Hjk];
        [exact Hne | apply Hnone; lia].
  - assert (k = 200) as Hk200 by lia.
    exists 199. split; [lia|]. split; [now rewrite (Hlast Hk200)|].
    split; [intros j Hj; apply Hnone; lia | lia].
Qed.

(** X11. [getCurrentGroup] always ends with the node of a view's group,
    never with the alert and never with the root: the view is the first of
    [View0], ..., [View199] whose type is [Node View], and when none of
    them is a Node View it is [View199] all the same. *)
Theorem getCurrentGroup_first_node_view (fuel : nat) :
  200 < fuel ->
  exists k,
    k <= 199
    /\ getCurrentGroup view_type view_group fuel
       = Some (GroupNode (view_group (viewName k)))
    /\ (forall j, j < k -> view_type (viewName j) <> "Node View")
    /\ (k < 199 -> view_type (viewName k) = "Node View").
Proof.
  intros Hfuel.
  destruct (nodeViewLoop_spec fuel 0 EmptyString)
    as (k & Hk & Hrun & Hbefore & Hhere); [lia | lia | lia | intros j Hj; lia |].
  exists k. split; [exact Hk|]. split; [|split; assumption].
  unfold getCurrentGroup. change (Z.of_nat 0) with 0%Z in Hrun.
  rewrite Hrun. reflexivity.
Qed.

End Views.

Lemma getCurrentGroup_first_node_view_witness :
  exists k,
    k <= 199
    /\ getCurrentGroup thirdIsNodeView (fun v => "Top/" +:+ v) 201
       = Some (GroupNode ("Top/" +:+ viewName k))
    /\ (k < 199 -> thirdIsNodeView (viewName k) = "Node View").
Proof.
  destruct (getCurrentGroup_first_node_view thirdIsNodeView
              (fun v => "Top/" +:+ v) 201)
    as (k & Hk & Hrun & _ & Hhere); [lia|].
  exists k. split; [exact Hk|]. split; [exact Hrun | exact Hhere].
Defined.

(** ** Unique column names in a scene with few columns *)

Lemma text_length_app (s t : string) :
  String.length (s +:+ t) = String.length s + String.length t.
Proof.
  induction s as [|c s IH]; [reflexivity|].
  change (String c s +:+ t) with (String c (s +:+ t)).
  cbn [String.length]. now rewrite IH.
Qed.

Lemma candidate_inj (columnPrefix : string) (j k : nat) :
  candidate columnPrefix j = candidate columnPrefix k -> j = k.
Proof.
  unfold candidate. destruct j as [|j], k as [|k]; intros H.
  - reflexivity.
  - apply (f_equal String.length) in H.
    rewrite !text_length_app in H. cbn [String.length] in H. lia.
  - apply (f_equal String.length) in H.
    rewrite !text_length_app in H. cbn [String.length] in H. lia.
  - apply (inj (String.app columnPrefix)) in H.
    apply (inj (String.app "_")) in H.
    apply (inj pretty) in H. lia.
Qed.

Lemma columnExists_lookup (h : Harmony) (columnName : string) :
  columnExists h columnName = true -> is_Some (columns h !! columnName).
Proof.
  unfold columnExists, truthy, column_type.
  destruct (columns h !! columnName) as [t|]; [eauto | discriminate].
Qed.

(** As many columns as candidates taken. *)
Lemma taken_candidates_bound (h : Harmony) (columnPrefix : string) (n : nat) :
  (forall j, j < n -> columnExists h (candidate columnPrefix j) = true) ->
  n <= size (columns h).
Proof.
  intros Htaken.
  set (names := map (candidate columnPrefix) (seq 0 n)).
  assert (NoDup names) as Hnodup.
  { apply (NoDup_fmap_2_strong (candidate columnPrefix)); [|apply NoDup_seq].
    intros j k _ _. apply candidate_inj. }
  assert (list_to_set names ⊆ dom (columns h)) as Hsub.
  { intros x Hx. apply elem_of_list_to_set in Hx.
    apply list_elem_of_fmap in Hx as (j & -> & Hj).
    apply elem_of_seq in Hj. apply elem_of_dom, columnExists_lookup.
    apply Htaken. lia. }
  apply subseteq_size in Hsub.
  rewrite size_list_to_set, size_dom in Hsub by exact Hnodup.
  unfold names in Hsub. now rewrite length_map, length_seq in Hsub.
Qed.

(** X13. In a scene with fewer than 2000 columns the name that
    [getUniqueColumnName] returns is free: no column has it. *)
Theorem getUniqueColumnName_free (h : Harmony) (columnPrefix : string)
    (fuel : nat) :
  size (columns h) < 2000 -> 2000 < fuel ->
  exists examined columnName,
    getUniqueColumnName fuel h columnPrefix = Some (examined, columnName)
    /\ columnExists h columnName = false.
Proof.
  intros Hsize Hfuel.
  destruct (uniqueColumnLoop_spec h columnPrefix fuel 0 [])
    as (k & Hrange & Hrun & Hbefore & Hfree); [lia | lia | intros j Hj; lia |].
  eexists _, _. split; [exact Hrun|].
  apply Hfree.
  pose proof (taken_candidates_bound h columnPrefix k Hbefore). lia.
Qed.

Lemma getUniqueColumnName_free_witness :
  exists examined columnName,
    getUniqueColumnName 2001 twoColumns "ATTR" = Some (examined, columnName)
    /\ columnExists twoColumns columnName = false.
Proof.
  apply (getUniqueColumnName_free twoColumns "ATTR" 2001); [|lia].
  assert (size (columns twoColumns) = 2) as -> by (vm_compute; reflexivity).
  lia.
Defined.

End HarmonyMore.
